(** * geomstats: random sampling backend, autodiff adapter and geodesic
      regression loss

    A shallow embedding of [geomstats/_backend/pytorch/random.py] and of the
    parts of the backend contract that its test-suite exercises
    ([tests/data/backends_data.py], [tests/tests_geomstats/test_geodesic_regression.py]).

    Conventions.
    - A Python call either returns or raises, and it may advance the
      process-wide torch generator.  A raised exception does not roll the
      generator back, so computations have type
      [generator -> outcome A * generator] (the state survives a failure).
    - The numbers of the backend are kept abstract in a structure [Arith]:
      the same definitions are read in exact rational arithmetic and in
      IEEE-754 binary32/binary64 (round to nearest even).
    - torch itself is an external collaborator: its primitives are the fields
      of a record [Torch], and what is assumed of them is stated as explicit
      contracts.
    - The array backend's linear algebra, the autodiff adapter and the
      regression estimator are not among the sources (their tests are); they
      are modelled from the specification, each such definition saying so. *)

From Stdlib Require Import ZArith QArith List Bool Lia Lqa PeanoNat.
From Stdlib Require Import Floats.SpecFloat.
Import ListNotations.

#[local] Open Scope nat_scope.

(* ===================================================================== *)
(** ** Python outcomes *)
(* ===================================================================== *)

Module Py.

(** The exception classes that the modelled code can raise. *)
Inductive exn : Set :=
| ValueError      (* raised by [uniform] itself *)
| TypeError       (* [len()] of a 0-d tensor *)
| RuntimeError    (* raised inside torch *)
| IndexError      (* index out of range *)
| ShapeMismatch.  (* the backend's shape validation *)

Inductive outcome (A : Type) : Type :=
| Ok (a : A)
| Raise (e : exn).
Arguments Ok {A} a.
Arguments Raise {A} e.

(** Computations over a mutable global state [G]. *)
Definition M (G A : Type) : Type := G -> outcome A * G.

Definition ret {G A} (a : A) : M G A := fun g => (Ok a, g).

Definition raise {G A} (e : exn) : M G A := fun g => (Raise e, g).

Definition bind {G A B} (m : M G A) (k : A -> M G B) : M G B :=
  fun g =>
    match m g with
    | (Ok a, g') => k a g'
    | (Raise e, g') => (Raise e, g')
    end.

(** A pure step that may raise. *)
Definition lift {G A} (o : outcome A) : M G A := fun g => (o, g).

End Py.
Export Py.

Declare Scope py_scope.
Delimit Scope py_scope with py.
Notation "x <- m ;; k" := (bind m (fun x => k))
  (at level 61, m at next level, right associativity) : py_scope.

(* ===================================================================== *)
(** ** Backend numbers *)
(* ===================================================================== *)

(** The arithmetic of the array engine.  [cmp] is a partial comparison:
    [None] stands for "unordered" (a NaN operand), for which every Python
    comparison answers [False]. *)
Record Arith : Type := {
  num  :> Type;
  zero : num;
  one  : num;
  add  : num -> num -> num;
  sub  : num -> num -> num;
  mul  : num -> num -> num;
  div  : num -> num -> num;
  cmp  : num -> num -> option comparison
}.
Arguments zero {_}.
Arguments one {_}.
Arguments add {_} _ _.
Arguments sub {_} _ _.
Arguments mul {_} _ _.
Arguments div {_} _ _.
Arguments cmp {_} _ _.

(** Python's [x >= y]. *)
Definition geb {A : Arith} (x y : A) : bool :=
  match cmp x y with
  | Some Gt | Some Eq => true
  | _ => false
  end.

(** Python's [x < y]. *)
Definition ltb {A : Arith} (x y : A) : bool :=
  match cmp x y with
  | Some Lt => true
  | _ => false
  end.

(** Python's [x <= y]. *)
Definition leb {A : Arith} (x y : A) : bool :=
  match cmp x y with
  | Some Lt | Some Eq => true
  | _ => false
  end.

(** Exact rational arithmetic. *)
Definition exactQ : Arith := {|
  num := Q;
  zero := 0%Q;
  one := 1%Q;
  add := Qplus;
  sub := Qminus;
  mul := Qmult;
  div := Qdiv;
  cmp := fun x y => Some (Qcompare x y)
|}.

(** IEEE-754 binary floating point with [prec] bits of precision, rounding
    to nearest, ties to even. *)
Definition ieee (prec emax : Z) : Arith := {|
  num := spec_float;
  zero := S754_zero false;
  one := SFone prec emax;
  add := SFadd prec emax;
  sub := SFsub prec emax;
  mul := SFmul prec emax;
  div := SFdiv prec emax;
  cmp := SFcompare
|}.

(** torch's default dtype, and Python's float. *)
Definition binary32 : Arith := ieee 24 128.
Definition binary64 : Arith := ieee 53 1024.

(* ===================================================================== *)
(** ** Arrays *)
(* ===================================================================== *)

(** An n-dimensional array: its shape and its entries in row-major order. *)
Record tensor (X : Type) : Type := mkTensor {
  shape : list nat;
  data  : list X
}.
Arguments mkTensor {X} _ _.
Arguments shape {X} _.
Arguments data {X} _.

(** Number of entries of an array of shape [s]. *)
Definition numel (s : list nat) : nat := fold_right Nat.mul 1 s.

(** Every array the engine builds has as many entries as its shape says. *)
Definition wf_tensor {X} (t : tensor X) : Prop :=
  length (data t) = numel (shape t).

Definition tmap {X Y} (f : X -> Y) (t : tensor X) : tensor Y :=
  {| shape := shape t; data := map f (data t) |}.

(** A 0-d array. *)
Definition scalar {X} (x : X) : tensor X := {| shape := []; data := [x] |}.

(** [len(x)]: the extent of the first axis; a 0-d array has none. *)
Definition len {X} (t : tensor X) : outcome nat :=
  match shape t with
  | [] => Raise TypeError
  | n :: _ => Ok n
  end.

(** The entries of [x[i]], the [i]-th slice along the first axis. *)
Definition row {X} (t : tensor X) (i : nat) : list X :=
  let k := numel (tl (shape t)) in
  firstn k (skipn (i * k) (data t)).

(** [x[i]] for an integer [i]. *)
Definition slice {X} (t : tensor X) (i : nat) : tensor X :=
  {| shape := tl (shape t); data := row t i |}.

(** [x[idx]] for an integer index array [idx]: gathers slices along the
    first axis; an index outside the axis raises. *)
Definition getitem {X} (t : tensor X) (idx : tensor nat) : outcome (tensor X) :=
  match shape t with
  | [] => Raise IndexError
  | n :: rest =>
      if forallb (fun i => i <? n) (data idx)
      then Ok {| shape := shape idx ++ rest;
                 data := flat_map (row t) (data idx) |}
      else Raise IndexError
  end.

(** Membership in the half-open interval [[low, high)], with the engine's
    own comparisons. *)
Definition in_half_open {A : Arith} (low high e : A) : bool :=
  leb low e && ltb e high.

(** The values a caller can pass to, or get from, the sampling functions. *)
Inductive pyval (A : Arith) : Type :=
| PTensor (t : tensor A)
| PFloat (x : A)
| PList (l : list A)
| PGenerator.
Arguments PTensor {A} t.
Arguments PFloat {A} x.
Arguments PList {A} l.
Arguments PGenerator {A}.

(** [torch.is_tensor]. *)
Definition is_tensor {A} (v : pyval A) : bool :=
  match v with PTensor _ => true | _ => false end.

(** A [size] argument: a single integer or a tuple of extents. *)
Inductive py_size : Set :=
| SizeInt (n : nat)
| SizeTuple (dims : list nat).

(* ===================================================================== *)
(** ** torch, as far as [random.py] uses it *)
(* ===================================================================== *)

(** The primitives of torch that the module calls.  Each reads and advances
    the default generator, and each may raise (torch validates its
    arguments).
    - [manual_seed k]: [torch.manual_seed(k)], which rejects a seed it cannot
      represent and then leaves the generator as it was;
    - [torch_rand dims]: [torch.rand] applied to the unpacked extents;
    - [torch_randint high dims]: [torch.randint(high, dims)];
    - [torch_normal mean std dims]: [torch.normal(mean=, std=, size=)];
    - [MultivariateNormal_sample mean cov size]: [MultivariateNormal(mean, cov).sample(size)]. *)
Record Torch (A : Arith) : Type := {
  generator : Type;
  manual_seed : Z -> generator -> outcome unit * generator;
  torch_rand : list nat -> generator -> outcome (tensor A) * generator;
  torch_randint : nat -> list nat -> generator -> outcome (tensor nat) * generator;
  torch_normal : A -> A -> list nat -> generator -> outcome (tensor A) * generator;
  MultivariateNormal_sample :
    tensor A -> tensor A -> option (list nat) -> generator
    -> outcome (tensor A) * generator
}.
Arguments generator {A} _.
Arguments manual_seed {A} _ _ _.
Arguments torch_rand {A} _ _ _.
Arguments torch_randint {A} _ _ _ _.
Arguments torch_normal {A} _ _ _ _ _.
Arguments MultivariateNormal_sample {A} _ _ _ _ _.

(** Contracts of torch. *)

(** Two results agree when the outcomes are the same and the generators they
    leave are related. *)
Definition agree {G X} (R : G -> G -> Prop) (r1 r2 : outcome X * G) : Prop :=
  fst r1 = fst r2 /\ R (snd r1) (snd r2).

(** Seeding makes generator states equivalent: [R] relates the states left
    by two accepted calls of [torch.manual_seed] with the same seed, whatever
    the states before (they need not be identical, it is enough that torch
    draws the same from them), and from related states every primitive of
    torch gives the same outcome and leaves related states. *)
Record seeded_equivalence {A} (T : Torch A)
       (R : generator T -> generator T -> Prop) : Prop := {
  seed_relates : forall k g1 g2 s1 s2,
    manual_seed T k g1 = (Ok tt, s1) ->
    manual_seed T k g2 = (Ok tt, s2) -> R s1 s2;
  seed_respects : forall k g1 g2,
    R g1 g2 -> agree R (manual_seed T k g1) (manual_seed T k g2);
  rand_respects : forall dims g1 g2,
    R g1 g2 -> agree R (torch_rand T dims g1) (torch_rand T dims g2);
  randint_respects : forall high dims g1 g2,
    R g1 g2 ->
    agree R (torch_randint T high dims g1) (torch_randint T high dims g2);
  normal_respects : forall loc scale dims g1 g2,
    R g1 g2 ->
    agree R (torch_normal T loc scale dims g1) (torch_normal T loc scale dims g2);
  mvn_respects : forall mean cov size g1 g2,
    R g1 g2 ->
    agree R (MultivariateNormal_sample T mean cov size g1)
            (MultivariateNormal_sample T mean cov size g2)
}.

(** The array that [torch.rand] returns has the requested shape. *)
Definition rand_shaped {A} (T : Torch A) : Prop :=
  forall dims g u g',
    torch_rand T dims g = (Ok u, g') -> shape u = dims /\ wf_tensor u.

(** [torch.randint(high, dims)] with [0 < high] returns an array of the
    requested shape whose entries are below [high]. *)
Definition randint_in_range {A} (T : Torch A) : Prop :=
  forall high dims g, 0 < high ->
    exists idx g',
      torch_randint T high dims g = (Ok idx, g') /\
      shape idx = dims /\ wf_tensor idx /\
      Forall (fun i => i < high) (data idx).

(** Its entries are drawn from the unit interval [[0, 1)]. *)
Definition rand_unit_interval {A} (T : Torch A) : Prop :=
  forall dims g u g',
    torch_rand T dims g = (Ok u, g') ->
    forallb (in_half_open zero one) (data u) = true.

(** The array that [torch.normal] returns has the requested shape. *)
Definition normal_shaped {A} (T : Torch A) : Prop :=
  forall loc scale dims g t g',
    torch_normal T loc scale dims g = (Ok t, g') -> shape t = dims.

(* ===================================================================== *)
(** ** [geomstats/_backend/pytorch/random.py] *)
(* ===================================================================== *)

Module Random.
Section WithTorch.
Variable A : Arith.
Variable T : Torch A.

#[local] Open Scope py_scope.

(** [if not hasattr(size, "__iter__"): size = (size,)]: an integer has no
    [__iter__] and is wrapped into a 1-tuple, a tuple is kept. *)
Definition as_tuple (size : py_size) : list nat :=
  match size with
  | SizeInt n => [n]
  | SizeTuple dims => dims
  end.

(** [def choice(x, a)] *)
Definition choice (x : pyval A) (a : nat) : M (generator T) (pyval A) :=
  match x with
  | PTensor t =>
      n <- lift (len t) ;;
      idx <- torch_randint T n [a] ;;
      r <- lift (getitem t idx) ;;
      ret (PTensor r)
  | _ => ret x
  end.

(** [def seed], forwarding its arguments to [torch.manual_seed] *)
Definition seed (k : Z) : M (generator T) (pyval A) :=
  bind (manual_seed T k) (fun _ => ret PGenerator).

(** [def normal(loc=0.0, scale=1.0, size=(1,))] *)
Definition normal (loc scale : A) (size : py_size) : M (generator T) (tensor A) :=
  let size := as_tuple size in
  torch_normal T loc scale size.

(** [def uniform(low=0.0, high=1.0, size=(1,))] *)
Definition uniform (low high : A) (size : py_size) : M (generator T) (tensor A) :=
  let size := as_tuple size in
  if geb low high then raise ValueError
  else
    u <- torch_rand T size ;;
    ret (tmap (fun e => add e low) (tmap (mul (sub high low)) u)).

(** [def multivariate_normal(mean, cov, size=None)] *)
Definition multivariate_normal (mean cov : tensor A) (size : option (list nat))
  : M (generator T) (tensor A) :=
  MultivariateNormal_sample T mean cov size.

(** A call of one of the module's functions, and a sequence of such calls
    run against the process-wide generator.  A caller may catch what a call
    raises, so the run records every outcome and goes on. *)
Inductive call : Type :=
| CallSeed (k : Z)
| CallUniform (low high : A) (size : py_size)
| CallNormal (loc scale : A) (size : py_size)
| CallChoice (x : pyval A) (a : nat)
| CallMultivariateNormal (mean cov : tensor A) (size : option (list nat)).

Definition as_pyval (m : M (generator T) (tensor A)) : M (generator T) (pyval A) :=
  t <- m ;; ret (PTensor t).

Definition perform (c : call) : M (generator T) (pyval A) :=
  match c with
  | CallSeed k => seed k
  | CallUniform low high size => as_pyval (uniform low high size)
  | CallNormal loc scale size => as_pyval (normal loc scale size)
  | CallChoice x a => choice x a
  | CallMultivariateNormal mean cov size => as_pyval (multivariate_normal mean cov size)
  end.

Fixpoint run (cs : list call) (g : generator T) : list (outcome (pyval A)) * generator T :=
  match cs with
  | [] => ([], g)
  | c :: cs' =>
      let (o, g') := perform c g in
      let (os, g'') := run cs' g' in
      (o :: os, g'')
  end.

End WithTorch.

Arguments choice {A} T x a _.
Arguments seed {A} T k _.
Arguments normal {A} T loc scale size _.
Arguments uniform {A} T low high size _.
Arguments multivariate_normal {A} T mean cov size _.
Arguments perform {A} T c _.
Arguments run {A} T cs g.
Arguments CallSeed {A} k.
Arguments CallUniform {A} low high size.
Arguments CallNormal {A} loc scale size.
Arguments CallChoice {A} x a.
Arguments CallMultivariateNormal {A} mean cov size.

End Random.

(* ===================================================================== *)
(** ** A reference generator *)
(* ===================================================================== *)

(** A linear congruential generator with a 64-bit state, used to run the
    module on concrete inputs.  Only what the contracts of torch speak of is
    reproduced (shapes, ranges, validation); the distributions are not.
    [bits] is the number of random bits of a unit-interval variate (24 for
    binary32, 53 for binary64) and [of_bits z] is the number [z / 2^bits]. *)
Module Lcg.

Definition modulus : Z := 2 ^ 64.

Definition next (g : Z) : Z :=
  ((6364136223846793005 * g + 1442695040888963407) mod modulus)%Z.

(** The seeds that [torch.manual_seed] takes: from [-2^63] to [2^64 - 1]. *)
Definition seed_in_range (k : Z) : bool :=
  ((- 2 ^ 63 <=? k) && (k <=? 2 ^ 64 - 1))%Z.

Fixpoint draws (bits : Z) (n : nat) (g : Z) : list Z * Z :=
  match n with
  | O => ([], g)
  | S n' =>
      let (l, g') := draws bits n' (next g) in
      ((g mod 2 ^ bits)%Z :: l, g')
  end.

Definition torch (A : Arith) (bits : Z) (of_bits : Z -> A) : Torch A := {|
  generator := Z;
  manual_seed := fun k g =>
    if seed_in_range k then (Ok tt, (k mod modulus)%Z)
    else (Raise RuntimeError, g);
  torch_rand := fun dims g =>
    let (l, g') := draws bits (numel dims) g in
    (Ok (mkTensor dims (map of_bits l)), g');
  torch_randint := fun high dims g =>
    match high with
    | O => (Raise RuntimeError, g)
    | S _ =>
        let (l, g') := draws bits (numel dims) g in
        (Ok (mkTensor dims (map (fun z => Z.to_nat (z mod Z.of_nat high)) l)), g')
    end;
  torch_normal := fun loc scale dims g =>
    if ltb scale zero then (Raise RuntimeError, g)
    else
      let (l, g') := draws bits (numel dims) g in
      (Ok (mkTensor dims (map (fun z => add loc (mul scale (of_bits z))) l)), g');
  MultivariateNormal_sample := fun mean cov size g =>
    let dims := match size with Some s => s | None => [] end in
    let (l, g') := draws bits (numel dims * numel (shape mean)) g in
    (Ok (mkTensor (dims ++ shape mean) (map of_bits l)), g')
|}.

(** Over the rationals: [z / 2^24]. *)
Definition torchQ : Torch exactQ :=
  torch exactQ 24 (fun z => (z # 16777216)%Q).

(** In binary32: [z * 2^-24], which is exact for [0 <= z < 2^24]. *)
Definition torch32 : Torch binary32 :=
  torch binary32 24 (fun z => binary_normalize 24 128 z (-24) false).

(** In binary64: [z * 2^-53], which is exact for [0 <= z < 2^53]. *)
Definition torch64 : Torch binary64 :=
  torch binary64 53 (fun z => binary_normalize 53 1024 z (-53) false).

End Lcg.

(** The float 2.0 with [prec] bits of precision: [2^(prec-1) * 2^(2-prec)]. *)
Definition float_two (prec : Z) : spec_float :=
  S754_finite false (2 ^ Z.to_pos (prec - 1)) (2 - prec).

(** A population of three slices of two entries each. *)
Definition population32 : tensor exactQ :=
  mkTensor [3; 2] [1%Q; 2%Q; 3%Q; 4%Q; 5%Q; 6%Q].

(* ===================================================================== *)
(** ** The autodiff adapter *)
(* ===================================================================== *)

(** The adapter belongs to the backend's autodiff module, which is not among
    the sources; this module is modelled from the specification: a function
    is run on traced numbers, which records a graph (forward pass), and the
    graph is differentiated from the output back to the parameter entries
    (reverse mode). *)

Module Autodiff.

(** A differentiable scalar primitive of the engine (sine, arccosine, ...):
    the function and its derivative. *)
Record primitive : Type := {
  prim_fn : Q -> Q;
  prim_deriv : Q -> Q
}.

(** The graph that the engine records while a function runs on a parameter
    that requires a gradient. *)
Inductive node : Type :=
| Leaf (i : nat)                 (* the [i]-th entry of the parameter *)
| Const (c : Q)
| Add (a b : node)
| Sub (a b : node)
| Mul (a b : node)
| Div (a b : node)
| Apply (f : primitive) (a : node).

(** Traced numbers: arithmetic on them extends the graph.  Their order is
    not part of the contract ([cmp] answers "unordered"). *)
Definition traced : Arith := {|
  num := node;
  zero := Const 0;
  one := Const 1;
  add := Add;
  sub := Sub;
  mul := Mul;
  div := Div;
  cmp := fun _ _ => None
|}.

(** Forward pass: the value of a node at the parameter entries [p]. *)
Fixpoint value (p : list Q) (e : node) : Q :=
  match e with
  | Leaf i => nth i p 0%Q
  | Const c => c
  | Add a b => (value p a + value p b)%Q
  | Sub a b => (value p a - value p b)%Q
  | Mul a b => (value p a * value p b)%Q
  | Div a b => (value p a / value p b)%Q
  | Apply f a => prim_fn f (value p a)
  end.

(** [grad[i] += s] *)
Fixpoint accumulate (i : nat) (s : Q) (grad : list Q) : list Q :=
  match grad, i with
  | [], _ => []
  | x :: rest, O => (x + s)%Q :: rest
  | x :: rest, S i' => x :: accumulate i' s rest
  end.

(** Reverse pass: propagates the adjoint [s] of a node down to the leaves,
    adding each leaf's share to the gradient. *)
Fixpoint backward (p : list Q) (e : node) (s : Q) (grad : list Q) : list Q :=
  match e with
  | Leaf i => accumulate i s grad
  | Const _ => grad
  | Add a b => backward p b s (backward p a s grad)
  | Sub a b => backward p b (- s)%Q (backward p a s grad)
  | Mul a b =>
      backward p b (s * value p a)%Q (backward p a (s * value p b)%Q grad)
  | Div a b =>
      backward p b (- (s * value p a / (value p b * value p b)))%Q
               (backward p a (s / value p b)%Q grad)
  | Apply f a => backward p a (s * prim_deriv f (value p a))%Q grad
  end.

(** The partial derivative of a node with respect to the [i]-th parameter
    entry, by the rules of calculus (forward mode): the reference against
    which the reverse pass is checked. *)
Fixpoint partial (p : list Q) (e : node) (i : nat) : Q :=
  match e with
  | Leaf j => if j =? i then 1%Q else 0%Q
  | Const _ => 0%Q
  | Add a b => (partial p a i + partial p b i)%Q
  | Sub a b => (partial p a i - partial p b i)%Q
  | Mul a b => (partial p a i * value p b + value p a * partial p b i)%Q
  | Div a b =>
      ((partial p a i * value p b - value p a * partial p b i)
       / (value p b * value p b))%Q
  | Apply f a => (prim_deriv f (value p a) * partial p a i)%Q
  end.

(** An array as the adapter hands it over: the engine's native tensor, or
    a numpy array.  The tag records only which of the two the caller gets;
    the entries are the mathematical values in both cases, so the conversion
    between the two representations (memory layout, dtype, device) is not
    part of this model and nothing is claimed about it. *)
Inductive array : Type :=
| Native (t : tensor Q)
| Numpy (t : tensor Q).

(** [gs.array]: the entries of an array, whichever way it was handed
    over. *)
Definition gs_array (a : array) : tensor Q :=
  match a with Native t => t | Numpy t => t end.

(** The parameter with its entries marked as the leaves of a fresh graph. *)
Definition requires_grad (param : tensor Q) : tensor traced :=
  mkTensor (shape param) (map Leaf (seq 0 (length (data param)))).

(** Modelled from the spec: [value_and_grad] of the backend's autodiff
    module, which is not among the sources.  Given [f] from a parameter to a
    scalar (0-d) loss it returns the function that yields the loss and its
    gradient with respect to the parameter, an array shaped like the
    parameter; with [to_numpy] both are handed over as numpy arrays.  Every
    call traces [f] afresh, nothing is kept between calls. *)
Definition value_and_grad (f : tensor traced -> tensor traced) (to_numpy : bool)
           (arg : array) : array * array :=
  let param := gs_array arg in
  let out := fold_right Add (Const 0) (data (f (requires_grad param))) in
  let v := scalar (value (data param) out) in
  let g := mkTensor (shape param)
                    (backward (data param) out 1%Q
                              (repeat 0%Q (length (data param)))) in
  if to_numpy then (Numpy v, Numpy g) else (Native v, Native g).

End Autodiff.

(* ===================================================================== *)
(** ** Binary linear-algebra operations of the backend *)
(* ===================================================================== *)

Module Linalg.

(** The operations [matmul], [dot] and [cross] belong to the array backend,
    which is not among the sources; this module is modelled from the
    specification and from the operands that the test data lists as accepted
    and as rejected. *)

(** *** The standard shape rules

    Shapes are read from the last axis backwards, hence the reversed lists. *)

(** Modelled from the spec: the standard broadcasting rule, on two
    (reversed) shapes: extents must agree, or one of
    them is 1; a missing leading axis counts as 1. *)
Fixpoint broadcast_rev (a b : list nat) : option (list nat) :=
  match a, b with
  | [], _ => Some b
  | _, [] => Some a
  | x :: a', y :: b' =>
      match broadcast_rev a' b' with
      | None => None
      | Some c =>
          if x =? y then Some (x :: c)
          else if x =? 1 then Some (y :: c)
          else if y =? 1 then Some (x :: c)
          else None
      end
  end.

Definition broadcastable_rev (a b : list nat) : bool :=
  match broadcast_rev a b with Some _ => true | None => false end.

(** Modelled from the spec: the standard contraction rule of the matrix
    product: the last axis of the left operand is contracted with
    the last-but-one of the right operand; a 1-d operand is a vector; the
    remaining leading axes are broadcast; a 0-d operand is not accepted. *)
Definition matmul_compatible (sa sb : list nat) : bool :=
  match rev sa, rev sb with
  | [], _ | _, [] => false
  | [n], [k] => n =? k
  | [n], _ :: k :: _ => n =? k
  | n :: _ :: _, [k] => n =? k
  | n :: _ :: ba, _ :: k :: bb => (n =? k) && broadcastable_rev ba bb
  end.

(** Modelled from the spec: the standard rule of the inner product along
    the last axis: equal last extents, leading axes
    broadcast. *)
Definition dot_compatible (sa sb : list nat) : bool :=
  match rev sa, rev sb with
  | n :: ba, k :: bb => (n =? k) && broadcastable_rev ba bb
  | _, _ => false
  end.

(** Modelled from the spec: the standard rule of the cross product along
    the last axis: vectors of 3 components (numpy also
    takes 2), leading axes broadcast. *)
Definition cross_compatible (sa sb : list nat) : bool :=
  match rev sa, rev sb with
  | n :: ba, k :: bb =>
      ((n =? 3) || (n =? 2)) && ((k =? 3) || (k =? 2)) && broadcastable_rev ba bb
  | _, _ => false
  end.

(** *** The operations *)

Section WithArith.
Variable A : Arith.

(** Position of a multi-index in row-major storage, both lists reversed;
    an axis of extent 1 is broadcast, missing leading axes are ignored. *)
Fixpoint offset_rev (shp idx : list nat) : nat :=
  match shp, idx with
  | s :: shp', i :: idx' => (if s =? 1 then 0 else i) + s * offset_rev shp' idx'
  | _, _ => 0
  end.

Definition get (t : tensor A) (idx : list nat) : A :=
  nth (offset_rev (rev (shape t)) (rev idx)) (data t) zero.

(** All multi-indices of a shape, in row-major order. *)
Fixpoint indices (shp : list nat) : list (list nat) :=
  match shp with
  | [] => [[]]
  | s :: shp' => flat_map (fun i => map (cons i) (indices shp')) (seq 0 s)
  end.

Definition sum_over (n : nat) (f : nat -> A) : A :=
  fold_right add zero (map f (seq 0 n)).

(** The shape check of [matmul]: both operands are at least matrices, the
    inner extents agree and the leading axes broadcast.  Returns the
    broadcast leading axes and the extents [m], [n], [p]. *)
Definition matmul_shape (sa sb : list nat) : option (list nat * nat * nat * nat) :=
  match rev sa, rev sb with
  | n :: m :: ba, p :: k :: bb =>
      if n =? k
      then match broadcast_rev ba bb with
           | Some c => Some (rev c, m, n, p)
           | None => None
           end
      else None
  | _, _ => None
  end.

(** Modelled from the spec: [matmul] of the array backend, which is not
    among the sources.  The shapes are validated first; a mismatch is the
    backend's own shape-mismatch error and nothing is computed. *)
Definition matmul (a b : tensor A) : outcome (tensor A) :=
  match matmul_shape (shape a) (shape b) with
  | None => Raise ShapeMismatch
  | Some (batch, m, n, p) =>
      Ok (mkTensor (batch ++ [m; p])
            (flat_map (fun bi =>
               flat_map (fun i =>
                 map (fun j =>
                   sum_over n (fun k =>
                     mul (get a (bi ++ [i; k])) (get b (bi ++ [k; j]))))
                   (seq 0 p))
                 (seq 0 m))
               (indices batch)))
  end.

Definition dot_shape (sa sb : list nat) : option (list nat * nat) :=
  match rev sa, rev sb with
  | n :: ba, k :: bb =>
      if n =? k
      then match broadcast_rev ba bb with
           | Some c => Some (rev c, n)
           | None => None
           end
      else None
  | _, _ => None
  end.

(** Modelled from the spec: [dot] of the array backend, which is not among
    the sources: the inner product along the last axis, validated first. *)
Definition dot (a b : tensor A) : outcome (tensor A) :=
  match dot_shape (shape a) (shape b) with
  | None => Raise ShapeMismatch
  | Some (batch, n) =>
      Ok (mkTensor batch
            (map (fun bi =>
               sum_over n (fun k => mul (get a (bi ++ [k])) (get b (bi ++ [k]))))
               (indices batch)))
  end.

Definition cross_shape (sa sb : list nat) : option (list nat) :=
  match rev sa, rev sb with
  | n :: ba, k :: bb =>
      if (n =? 3) && (k =? 3)
      then option_map (@rev nat) (broadcast_rev ba bb)
      else None
  | _, _ => None
  end.

(** Modelled from the spec: [cross] of the array backend, which is not
    among the sources: the cross product of 3-vectors along the last axis,
    validated first. *)
Definition cross (a b : tensor A) : outcome (tensor A) :=
  match cross_shape (shape a) (shape b) with
  | None => Raise ShapeMismatch
  | Some batch =>
      Ok (mkTensor (batch ++ [3])
            (flat_map (fun bi =>
               let x i := get a (bi ++ [i]) in
               let y i := get b (bi ++ [i]) in
               [sub (mul (x 1) (y 2)) (mul (x 2) (y 1));
                sub (mul (x 2) (y 0)) (mul (x 0) (y 2));
                sub (mul (x 0) (y 1)) (mul (x 1) (y 0))])
               (indices batch)))
  end.

End WithArith.

Arguments get {A} t idx.
Arguments sum_over {A} n f.
Arguments matmul {A} a b.
Arguments dot {A} a b.
Arguments cross {A} a b.

End Linalg.

(** [gs.ones]: an array of the given shape, every entry 1. *)
Definition ones (shp : list nat) : tensor exactQ :=
  mkTensor shp (repeat 1%Q (numel shp)).

Definition as_option {X} (o : outcome X) : option X :=
  match o with Ok x => Some x | Raise _ => None end.

Definition shape_of (t : tensor exactQ) : list nat := shape t.

(* ===================================================================== *)
(** ** The geodesic regression loss *)
(* ===================================================================== *)

(** The estimator belongs to the learning package, which is not among the
    sources; its loss is modelled from the specification, over the part of
    the manifold and metric protocol it consumes. *)

Module Regression.
Section WithArith.
Variable A : Arith.

(** The part of the manifold and metric protocol that the loss consumes:
    [exp tangent_vec base_point] and the squared geodesic distance. *)
Record Metric : Type := {
  exp : tensor A -> tensor A -> tensor A;
  squared_dist : tensor A -> tensor A -> A
}.

(** The estimator's configuration, as far as the loss reads it:
    [penalty coef intercept] is the regularisation term [R]. *)
Record Estimator : Type := {
  metric : Metric;
  regularization : A;
  penalty : tensor A -> tensor A -> A
}.

(** [x * v] for a scalar [x]. *)
Definition scale (x : A) (v : tensor A) : tensor A := tmap (mul x) v.

(** [gs.vstack([intercept, coef])]: the [(2,) + shape] layout. *)
Definition vstack (intercept coef : tensor A) : tensor A :=
  mkTensor (2 :: shape intercept) (data intercept ++ data coef).

(** The two halves of a parameter, each reshaped to [shape]. *)
Definition unpack (param : tensor A) (shp : list nat) : tensor A * tensor A :=
  let n := numel shp in
  (mkTensor shp (firstn n (data param)),
   mkTensor shp (skipn n (data param))).

(** A count as a number of the engine. *)
Definition of_nat (n : nat) : A := Nat.iter n (add one) zero.

(** [gs.sum] *)
Definition gs_sum (l : list A) : A := fold_right add zero l.

(** Modelled from the spec: [GeodesicRegression.loss], whose module is not
    among the sources.
    [(1/n) * sum_i d(y_i, exp(X_i * coef, intercept))^2
       + regularization * R(coef, intercept)], with [n = len(X)] and
    [intercept], [coef] unpacked from [param]; the result is a 0-d array. *)
Definition loss (gr : Estimator) (X y param : tensor A) (shp : list nat)
  : tensor A :=
  let (intercept, coef) := unpack param shp in
  let n := length (data X) in
  let residual i :=
    squared_dist (metric gr)
      (slice y i)
      (exp (metric gr) (scale (nth i (data X) zero) coef) intercept) in
  scalar (add (mul (div one (of_nat n)) (gs_sum (map residual (seq 0 n))))
              (mul (regularization gr) (penalty gr coef intercept))).

(** The targets generated by the model itself:
    [y_i = exp(X_i * coef, intercept)], stacked along a new first axis. *)
Definition geodesic_targets (m : Metric) (X intercept coef : tensor A)
  : tensor A :=
  mkTensor (length (data X) :: shape intercept)
           (flat_map (fun x => data (exp m (scale x coef) intercept)) (data X)).

(** Flat space: [exp(v, p) = p + v] and [d(a, b)^2 = sum_k (a_k - b_k)^2]. *)
Definition euclidean : Metric := {|
  exp := fun v p => mkTensor (shape p) (map (fun '(pk, vk) => add pk vk)
                                            (combine (data p) (data v)));
  squared_dist := fun a b =>
    gs_sum (map (fun '(ak, bk) => mul (sub ak bk) (sub ak bk))
               (combine (data a) (data b)))
|}.

(** In flat space nothing is to be penalised. *)
Definition euclidean_regression : Estimator := {|
  metric := euclidean;
  regularization := one;
  penalty := fun _ _ => zero
|}.

End WithArith.

Arguments exp {A} _ _ _.
Arguments squared_dist {A} _ _ _.
Arguments metric {A} _.
Arguments regularization {A} _.
Arguments penalty {A} _ _ _.
Arguments scale {A} x v.
Arguments vstack {A} intercept coef.
Arguments unpack {A} param shp.
Arguments of_nat {A} n.
Arguments gs_sum {A} l.
Arguments loss {A} gr X y param shp.
Arguments geodesic_targets {A} m X intercept coef.

End Regression.

(** A small data set in flat 3-space: a centred predictor, the generating
    intercept and coefficient, and a first guess of the parameter. *)
Definition centred_X : tensor exactQ := mkTensor [3] [-1; 0; 1]%Q.
Definition true_intercept : tensor exactQ := mkTensor [3] [1; 2; 3]%Q.
Definition true_coef : tensor exactQ := mkTensor [3] [1 # 2; 0; -1]%Q.
Definition guess : tensor Q := mkTensor [2; 3] [0; 0; 0; 0; 0; 0]%Q.

(* ===================================================================== *)
(** ** More of torch's contract, and non-finite floats *)
(* ===================================================================== *)

(** The indices that [torch.randint(high, dims)] returns are below [high]. *)
Definition randint_bounded {A} (T : Torch A) : Prop :=
  forall high dims g idx g',
    torch_randint T high dims g = (Ok idx, g') ->
    Forall (fun i => i < high) (data idx).

(** A float that is not a finite number: an infinity or a NaN. *)
Definition nonfinite (x : spec_float) : bool :=
  match x with
  | S754_infinity _ | S754_nan => true
  | S754_zero _ | S754_finite _ _ _ => false
  end.

Definition is_infinity (x : spec_float) : bool :=
  match x with S754_infinity _ => true | _ => false end.

(* ===================================================================== *)
(** ** Zero, as the engine sees it *)
(* ===================================================================== *)

(** Python's [x == 0]: true of the rationals equal to 0 and of both signed
    zeros of a float format, false of a NaN. *)
Definition is_zero {A : Arith} (x : A) : bool :=
  match cmp x zero with
  | Some Eq => true
  | _ => false
  end.

(** What the loss needs of the arithmetic: a sum of zeros is zero. *)
Definition zero_laws (A : Arith) : Prop :=
  @is_zero A zero = true /\
  forall a b : A, is_zero a = true -> is_zero b = true ->
                  is_zero (add a b) = true.

(** An integer as a binary64 number. *)
Definition f64 (z : Z) : binary64 := binary_normalize 53 1024 z 0 false.

(** The small data set in binary64 (with integer entries). *)
Definition centred_X64 : tensor binary64 := mkTensor [3] (map f64 [-1; 0; 1]%Z).
Definition true_intercept64 : tensor binary64 :=
  mkTensor [3] (map f64 [1; 2; 3]%Z).
Definition true_coef64 : tensor binary64 := mkTensor [3] (map f64 [2; 0; -1]%Z).

(** An estimator in flat space whose regularisation term is the squared
    length of the coefficient. *)
Definition ridge_regression : Regression.Estimator exactQ := {|
  Regression.metric := Regression.euclidean exactQ;
  Regression.regularization := 1%Q;
  Regression.penalty := fun coef _ =>
    @Regression.gs_sum exactQ (map (fun c : Q => (c * c)%Q) (data coef))
|}.

(** The unit-interval sample that the reference generator draws for
    [uniform(0, 1, 4)] from state 42, and what [choice] draws from the
    3 x 2 population there. *)
Definition unit_sample : tensor exactQ :=
  match fst (Random.uniform Lcg.torchQ 0%Q 1%Q (SizeInt 4) 42%Z) with
  | Ok s => s
  | Raise _ => mkTensor [] []
  end.

Definition drawn_slices : tensor exactQ :=
  mkTensor [4; 2] [1%Q; 2%Q; 5%Q; 6%Q; 1%Q; 2%Q; 3%Q; 4%Q].

(* ===================================================================== *)
(** * Properties *)
(* ===================================================================== *)

(** ** Comparisons and arrays *)

Lemma ltb_not_geb {A : Arith} (x y : A) : ltb x y = true -> geb x y = false.
Proof.
  unfold ltb, geb. destruct (cmp x y) as [[ | | ] | ]; congruence.
Qed.

Lemma wf_tmap {X Y} (f : X -> Y) (t : tensor X) :
  wf_tensor t -> wf_tensor (tmap f t).
Proof. unfold wf_tensor, tmap; simpl. now rewrite length_map. Qed.

Lemma wf_scalar {X} (x : X) : wf_tensor (scalar x).
Proof. reflexivity. Qed.

(* ===================================================================== *)
(** ** The sampling module *)
(* ===================================================================== *)

Import Random.

Section UniformFacts.
Variable A : Arith.
Variable T : Torch A.
Implicit Types (low high : A) (size : py_size) (g : generator T).

(** When the bounds are rejected nothing is drawn. *)
Lemma uniform_rejects low high size g :
  geb low high = true ->
  uniform T low high size g = (Raise ValueError, g).
Proof.
  intros Hge. unfold uniform. now rewrite Hge.
Qed.

(** When they are accepted, the outcome is that of the one draw, rescaled. *)
Lemma uniform_accepts low high size g :
  geb low high = false ->
  uniform T low high size g =
    match torch_rand T (as_tuple size) g with
    | (Ok u, g') =>
        (Ok (tmap (fun e => add e low) (tmap (mul (sub high low)) u)), g')
    | (Raise e, g') => (Raise e, g')
    end.
Proof.
  intros Hge. unfold uniform, bind, ret. now rewrite Hge.
Qed.

Lemma uniform_draws low high size g u g' :
  ltb low high = true ->
  torch_rand T (as_tuple size) g = (Ok u, g') ->
  uniform T low high size g =
    (Ok (tmap (fun e => add e low) (tmap (mul (sub high low)) u)), g').
Proof.
  intros Hlt Hdraw. apply ltb_not_geb in Hlt.
  now rewrite (uniform_accepts _ _ _ _ Hlt), Hdraw.
Qed.

(** C2.  [uniform(low, high, size)] raises [ValueError] whenever
    [low >= high] holds (equal bounds included), whatever the size, and
    returns nothing; when [low < high] holds it returns an array, the
    rescaled draw of [torch.rand]. *)
Theorem uniform_domain_error low high size g :
  (geb low high = true ->
     uniform T low high size g = (Raise ValueError, g)) /\
  (ltb low high = true ->
     forall u g', torch_rand T (as_tuple size) g = (Ok u, g') ->
     exists t, uniform T low high size g = (Ok t, g')).
Proof.
  split.
  - apply uniform_rejects.
  - intros Hlt u g' Hdraw.
    rewrite (uniform_draws _ _ _ _ _ _ Hlt Hdraw). eauto.
Qed.

(** C10.  A call of [uniform] that fails its bounds check has not touched
    the generator: the state is the one before the call, and whatever is
    drawn afterwards is what would have been drawn without the failed call. *)
Theorem uniform_failure_is_atomic low high size g :
  geb low high = true ->
  snd (uniform T low high size g) = g /\
  forall cs,
    run T (CallUniform low high size :: cs) g =
      (Raise ValueError :: fst (run T cs g), snd (run T cs g)).
Proof.
  intros Hge. split.
  - now rewrite uniform_rejects.
  - intros cs. simpl. unfold as_pyval, bind.
    rewrite (uniform_rejects _ _ _ _ Hge).
    now destruct (run T cs g).
Qed.

End UniformFacts.

Section SeedFacts.
Variable A : Arith.
Variable T : Torch A.
Variable R : generator T -> generator T -> Prop.
Hypothesis HR : seeded_equivalence T R.

(** A step that agrees, followed by steps that agree, agrees. *)
Lemma bind_agree {X Y} (m1 m2 : M (generator T) X) (k : X -> M (generator T) Y)
      g1 g2 :
  agree R (m1 g1) (m2 g2) ->
  (forall x s1 s2, R s1 s2 -> agree R (k x s1) (k x s2)) ->
  agree R (bind m1 k g1) (bind m2 k g2).
Proof.
  unfold agree, bind. intros [Hout Hst] Hk.
  destruct (m1 g1) as [[x1 | e1] s1], (m2 g2) as [[x2 | e2] s2];
    simpl in *; try discriminate.
  - injection Hout as <-. now apply Hk.
  - injection Hout as ->. now split.
Qed.

Lemma ret_agree {X} (x : X) g1 g2 :
  R g1 g2 -> agree R (ret x g1) (ret x g2).
Proof. now split. Qed.

Lemma lift_agree {X} (o : outcome X) g1 g2 :
  R g1 g2 -> agree R (lift o g1) (lift o g2).
Proof. now split. Qed.

(** From equivalent generators, every function of the module gives the same
    outcome and leaves equivalent generators. *)
Lemma perform_agree (c : call A) g1 g2 :
  R g1 g2 -> agree R (perform T c g1) (perform T c g2).
Proof.
  intros Hg. destruct c as [k | low high size | loc scale size | x a
                           | mean cov size]; simpl.
  - unfold seed. apply bind_agree.
    + now apply (seed_respects T R HR).
    + intros _ s1 s2. apply ret_agree.
  - unfold as_pyval. apply bind_agree; [ | intros t s1 s2; apply ret_agree].
    unfold uniform. destruct (geb low high).
    + now split.
    + apply bind_agree; [ | intros u s1 s2; apply ret_agree].
      now apply (rand_respects T R HR).
  - unfold as_pyval. apply bind_agree; [ | intros t s1 s2; apply ret_agree].
    unfold normal. now apply (normal_respects T R HR).
  - destruct x as [t | x | l | ]; simpl; try now apply ret_agree.
    apply bind_agree; [now apply lift_agree | ].
    intros n s1 s2 Hs. apply bind_agree.
    + now apply (randint_respects T R HR).
    + intros idx s1' s2' Hs'. apply bind_agree; [now apply lift_agree | ].
      intros r s1'' s2''. apply ret_agree.
  - unfold as_pyval. apply bind_agree; [ | intros t s1 s2; apply ret_agree].
    unfold multivariate_normal. now apply (mvn_respects T R HR).
Qed.

(** And so does every sequence of calls. *)
Lemma run_agree (cs : list (call A)) : forall g1 g2,
  R g1 g2 ->
  fst (run T cs g1) = fst (run T cs g2) /\
  R (snd (run T cs g1)) (snd (run T cs g2)).
Proof.
  induction cs as [ | c cs IH]; intros g1 g2 Hg; simpl.
  - now split.
  - destruct (perform_agree c g1 g2 Hg) as [Hout Hst].
    destruct (perform T c g1) as [o1 s1], (perform T c g2) as [o2 s2].
    simpl in Hout, Hst. subst o2.
    destruct (IH s1 s2 Hst) as [Houts Hsts].
    destruct (run T cs s1) as [os1 s1'], (run T cs s2) as [os2 s2'].
    simpl in *. now subst os2.
Qed.


End SeedFacts.

(** *** Ranges and shapes *)

Lemma Q_leb_le (x y : exactQ) : leb x y = true <-> (x <= y)%Q.
Proof.
  unfold leb; simpl. rewrite Qle_alt.
  destruct (x ?= y)%Q; split; intros; congruence.
Qed.

Lemma Q_ltb_lt (x y : exactQ) : ltb x y = true <-> (x < y)%Q.
Proof.
  unfold ltb; simpl. rewrite Qlt_alt.
  destruct (x ?= y)%Q; split; intros; congruence.
Qed.

Lemma Q_in_half_open (low high e : exactQ) :
  in_half_open low high e = true <-> (low <= e < high)%Q.
Proof.
  unfold in_half_open. rewrite andb_true_iff, Q_leb_le, Q_ltb_lt. tauto.
Qed.

(** The affine map sends [[0, 1)] into [[low, high)] when evaluated exactly. *)
Lemma rescale_in_range (low high u : Q) :
  (low < high)%Q -> (0 <= u < 1)%Q ->
  (low <= (high - low) * u + low < high)%Q.
Proof.
  intros Hlh [Hu0 Hu1]. split.
  - assert (0 <= (high - low) * u)%Q by (apply Qmult_le_0_compat; lra). lra.
  - assert ((high - low) * u < (high - low) * 1)%Q
      by (apply Qmult_lt_l; lra).
    lra.
Qed.

Section SizeFacts.
Variable A : Arith.
Variable T : Torch A.

(** An integer size and the 1-tuple holding it are the same request. *)
Lemma uniform_int_size (low high : A) n g :
  uniform T low high (SizeInt n) g = uniform T low high (SizeTuple [n]) g.
Proof. reflexivity. Qed.

Lemma normal_int_size (loc scale : A) n g :
  normal T loc scale (SizeInt n) g = normal T loc scale (SizeTuple [n]) g.
Proof. reflexivity. Qed.

(** What [uniform] returns is a rescaled draw. *)
Lemma uniform_returns (low high : A) size g t g' :
  uniform T low high size g = (Ok t, g') ->
  exists u,
    torch_rand T (as_tuple size) g = (Ok u, g') /\
    t = tmap (fun e => add e low) (tmap (mul (sub high low)) u).
Proof.
  intros Hrun.
  destruct (geb low high) eqn:Hge.
  - rewrite uniform_rejects in Hrun by assumption. discriminate.
  - rewrite uniform_accepts in Hrun by assumption.
    destruct (torch_rand T (as_tuple size) g) as [[u | e] g1];
      [ | discriminate].
    injection Hrun as <- <-. eauto.
Qed.

End SizeFacts.

Section ExactRange.
Variable T : Torch exactQ.
Hypothesis Hshape : rand_shaped T.
Hypothesis Hunit : rand_unit_interval T.
Hypothesis Hnormal : normal_shaped T.

(** C5, as amended.  In exact arithmetic every entry of the array that
    [uniform(low, high, size)] returns, [low < high], lies in [[low, high)];
    the array has the normalised shape, an integer [n] standing for [(n,)],
    and [normal] normalises its size in the same way. *)
Theorem uniform_range_and_size (low high loc scale : Q) size n g :
  (low < high)%Q ->
  (forall u g', torch_rand T (as_tuple size) g = (Ok u, g') ->
     exists t, uniform T low high size g = (Ok t, g')) /\
  (forall t g', uniform T low high size g = (Ok t, g') ->
     shape t = as_tuple size /\
     Forall (fun e => (low <= e < high)%Q) (data t)) /\
  as_tuple (SizeInt n) = [n] /\
  uniform T low high (SizeInt n) g = uniform T low high (SizeTuple [n]) g /\
  normal T loc scale (SizeInt n) g = normal T loc scale (SizeTuple [n]) g /\
  (forall t g', normal T loc scale (SizeInt n) g = (Ok t, g') -> shape t = [n]).
Proof.
  intros Hlh. split; [ | split; [ | split; [ | split; [ | split]]]].
  - intros u g' Hdraw. eexists.
    apply (uniform_draws exactQ T); [now apply Q_ltb_lt | exact Hdraw].
  - intros t g' Hrun.
    destruct (uniform_returns exactQ T _ _ _ _ _ _ Hrun) as (u & Hdraw & ->).
    split; [apply (Hshape _ _ _ _ Hdraw) | ].
    simpl. rewrite map_map. apply Forall_forall. intros e He.
    apply in_map_iff in He. destruct He as [x [<- Hx]].
    apply rescale_in_range; [assumption | ].
    apply Q_in_half_open.
    pose proof (Hunit _ _ _ _ Hdraw) as Hall.
    rewrite forallb_forall in Hall. now apply Hall.
  - reflexivity.
  - apply uniform_int_size.
  - apply normal_int_size.
  - intros t g' Hrun. apply (Hnormal _ _ _ _ _ _ Hrun).
Qed.

End ExactRange.

(** *** Gathering slices *)

Lemma row_length {X} (t : tensor X) n rest i :
  shape t = n :: rest -> wf_tensor t -> i < n ->
  length (row t i) = numel rest.
Proof.
  unfold wf_tensor, row. intros -> Hwf Hi. simpl in *.
  rewrite length_firstn, length_skipn, Hwf. nia.
Qed.

Lemma flat_map_const_length {X Y} (f : X -> list Y) k l :
  (forall x, In x l -> length (f x) = k) ->
  length (flat_map f l) = length l * k.
Proof.
  induction l as [ | x l IH]; intros Hk; simpl.
  - reflexivity.
  - rewrite length_app, Hk by (now left).
    rewrite IH; [reflexivity | ].
    intros y Hy. apply Hk. now right.
Qed.

(** The [j]-th block of a concatenation of equally long blocks. *)
Lemma flat_map_block {X Y} (f : X -> list Y) k d l j :
  (forall x, In x l -> length (f x) = k) ->
  j < length l ->
  firstn k (skipn (j * k) (flat_map f l)) = f (nth j l d).
Proof.
  revert j. induction l as [ | x l IH]; intros j Hk Hj; simpl in *.
  - lia.
  - assert (Hx : length (f x) = k) by auto.
    destruct j as [ | j]; simpl.
    + rewrite firstn_app, <- Hx, Nat.sub_diag, firstn_all. simpl.
      now rewrite app_nil_r.
    + rewrite skipn_app, Hx.
      replace (k + j * k - k) with (j * k) by lia.
      rewrite skipn_all2 by (rewrite Hx; lia). simpl.
      apply IH; [auto | lia].
Qed.

Lemma getitem_in_range {X} (t : tensor X) (idx : tensor nat) n rest :
  shape t = n :: rest ->
  Forall (fun i => i < n) (data idx) ->
  getitem t idx =
    Ok {| shape := shape idx ++ rest; data := flat_map (row t) (data idx) |}.
Proof.
  intros Hs Hall. unfold getitem. rewrite Hs.
  replace (forallb (fun i => i <? n) (data idx)) with true; [reflexivity | ].
  symmetry. apply forallb_forall. intros i Hi.
  rewrite Forall_forall in Hall. apply Nat.ltb_lt. auto.
Qed.

Section ChoiceFacts.
Variable A : Arith.
Variable T : Torch A.
Hypothesis Hrandint : randint_in_range T.

(** Anything that is not a tensor is handed back, and nothing is drawn. *)
Lemma choice_passes_through (x : pyval A) a g :
  is_tensor x = false -> choice T x a g = (Ok x, g).
Proof. destruct x; simpl; intros H; try discriminate; reflexivity. Qed.

(** C4, as amended.  For a tensor population with a non-empty first axis,
    [choice(population, a)] returns a tensor of exactly [a] slices, each of
    them a slice of the population along its first axis; a population that is
    not a tensor is returned as it is. *)
Theorem choice_draws_slices (x : pyval A) (a : nat) (g : generator T) :
  (forall t n rest,
      x = PTensor t -> shape t = n :: rest -> 0 < n -> wf_tensor t ->
      exists r g',
        choice T x a g = (Ok (PTensor r), g') /\
        len r = Ok a /\ shape r = a :: rest /\ wf_tensor r /\
        forall j, j < a -> exists i, i < n /\ slice r j = slice t i) /\
  (is_tensor x = false -> choice T x a g = (Ok x, g)).
Proof.
  split; [ | apply choice_passes_through].
  intros t n rest -> Hs Hn Hwf.
  destruct (Hrandint n [a] g Hn) as (idx & g' & Hdraw & Hsi & Hwi & Hall).
  assert (Hlen : length (data idx) = a).
  { unfold wf_tensor in Hwi. rewrite Hsi in Hwi. simpl in Hwi. lia. }
  assert (Hrows : forall i, In i (data idx) -> length (row t i) = numel rest).
  { intros i Hi. rewrite Forall_forall in Hall.
    apply (row_length t n rest i Hs Hwf). auto. }
  exists {| shape := shape idx ++ rest; data := flat_map (row t) (data idx) |}, g'.
  split; [ | split; [ | split; [ | split]]].
  - unfold choice, bind, lift, ret, len. rewrite Hs, Hdraw.
    now rewrite (getitem_in_range t idx n rest Hs Hall).
  - unfold len; simpl. now rewrite Hsi.
  - simpl. now rewrite Hsi.
  - unfold wf_tensor; simpl. rewrite Hsi; simpl.
    rewrite (flat_map_const_length (row t) (numel rest) (data idx) Hrows), Hlen. lia.
  - intros j Hj. exists (nth j (data idx) 0). split.
    + rewrite Forall_forall in Hall. apply Hall. apply nth_In. lia.
    + unfold slice. simpl. rewrite Hsi, Hs. simpl. f_equal.
      unfold row at 1. simpl.
      apply flat_map_block; [assumption | lia].
Qed.

End ChoiceFacts.

(* ===================================================================== *)
(** ** The reference generator meets the contracts of torch *)
(* ===================================================================== *)

Lemma draws_length bits n g : length (fst (Lcg.draws bits n g)) = n.
Proof.
  revert g. induction n as [ | n IH]; intros g; simpl.
  - reflexivity.
  - specialize (IH (Lcg.next g)).
    destruct (Lcg.draws bits n (Lcg.next g)); simpl in *. now rewrite IH.
Qed.

Lemma draws_range bits n g :
  (0 <= bits)%Z ->
  Forall (fun z => (0 <= z < 2 ^ bits)%Z) (fst (Lcg.draws bits n g)).
Proof.
  intros Hb. revert g. induction n as [ | n IH]; intros g; simpl.
  - constructor.
  - specialize (IH (Lcg.next g)).
    destruct (Lcg.draws bits n (Lcg.next g)); simpl in *.
    constructor; [ | assumption].
    apply Z.mod_pos_bound. now apply Z.pow_pos_nonneg.
Qed.

(** The reference generator's states are equivalent when they are equal. *)
Lemma lcg_seeded_equivalence A bits of_bits :
  seeded_equivalence (Lcg.torch A bits of_bits) eq.
Proof.
  split; simpl.
  - intros k g1 g2 s1 s2.
    destruct (Lcg.seed_in_range k); [ | discriminate].
    now intros [= <-] [= <-].
  - intros k g1 g2 <-. now split.
  - intros dims g1 g2 <-. now split.
  - intros high dims g1 g2 <-. now split.
  - intros loc scale dims g1 g2 <-. now split.
  - intros mean cov size g1 g2 <-. now split.
Qed.

Lemma lcg_rand_shaped A bits of_bits : rand_shaped (Lcg.torch A bits of_bits).
Proof.
  intros dims g u g'. simpl.
  pose proof (draws_length bits (numel dims) g) as Hlen.
  destruct (Lcg.draws bits (numel dims) g); simpl in *.
  intros [= <- _]. split; [reflexivity | ].
  unfold wf_tensor; simpl. now rewrite length_map.
Qed.

Lemma lcg_normal_shaped A bits of_bits : normal_shaped (Lcg.torch A bits of_bits).
Proof.
  intros loc scale dims g t g'. simpl.
  destruct (ltb scale zero); [discriminate | ].
  destruct (Lcg.draws bits (numel dims) g).
  intros [= <- _]. reflexivity.
Qed.

Lemma lcg_randint_in_range A bits of_bits :
  randint_in_range (Lcg.torch A bits of_bits).
Proof.
  intros high dims g Hhigh. simpl.
  destruct high as [ | h]; [lia | ].
  pose proof (draws_length bits (numel dims) g) as Hlen.
  destruct (Lcg.draws bits (numel dims) g) as [l g']; simpl in *.
  eexists; eexists. split; [reflexivity | ]. simpl.
  split; [reflexivity | ]. split.
  - unfold wf_tensor; simpl. now rewrite length_map.
  - apply Forall_forall. intros i Hi.
    apply in_map_iff in Hi. destruct Hi as [z [<- _]].
    pose proof (Z.mod_pos_bound z (Z.of_nat (S h)) ltac:(lia)). lia.
Qed.

Lemma torchQ_rand_unit_interval : rand_unit_interval Lcg.torchQ.
Proof.
  intros dims g u g'. simpl.
  pose proof (draws_range 24 (numel dims) g ltac:(lia)) as Hr.
  destruct (Lcg.draws 24 (numel dims) g) as [l g1]; simpl in *.
  intros [= <- _]. simpl.
  apply forallb_forall. intros x Hx.
  apply in_map_iff in Hx. destruct Hx as [z [<- Hz]].
  rewrite Forall_forall in Hr. specialize (Hr z Hz).
  apply Q_in_half_open. unfold Qle, Qlt; simpl. lia.
Qed.

(* ===================================================================== *)
(** ** Concrete runs *)
(* ===================================================================== *)

Lemma uniform_domain_error_witness :
  uniform Lcg.torchQ 1%Q 1%Q (SizeInt 3) 42%Z = (Raise ValueError, 42%Z) /\
  exists t,
    uniform Lcg.torchQ 0%Q 1%Q (SizeTuple [2; 2]) 42%Z =
      (Ok t, snd (torch_rand Lcg.torchQ [2; 2] 42%Z)).
Proof.
  split.
  - apply (proj1 (uniform_domain_error exactQ Lcg.torchQ
                    1%Q 1%Q (SizeInt 3) 42%Z)).
    reflexivity.
  - eapply (proj2 (uniform_domain_error exactQ Lcg.torchQ
                     0%Q 1%Q (SizeTuple [2; 2]) 42%Z)).
    + reflexivity.
    + reflexivity.
Defined.

Lemma uniform_failure_is_atomic_witness :
  snd (uniform Lcg.torchQ 5%Q (1 # 2)%Q (SizeInt 2) 7%Z) = 7%Z /\
  forall cs,
    run Lcg.torchQ (CallUniform (5%Q : exactQ) (1 # 2)%Q (SizeInt 2) :: cs) 7%Z =
      (Raise ValueError :: fst (run Lcg.torchQ cs 7%Z),
       snd (run Lcg.torchQ cs 7%Z)).
Proof.
  apply (uniform_failure_is_atomic exactQ Lcg.torchQ 5%Q (1 # 2)%Q (SizeInt 2) 7%Z).
  reflexivity.
Defined.


Lemma uniform_range_and_size_witness :
  (forall u g', torch_rand Lcg.torchQ [4] 42%Z = (Ok u, g') ->
     exists t, uniform Lcg.torchQ (-1)%Q 3%Q (SizeInt 4) 42%Z = (Ok t, g')) /\
  (forall t g',
      uniform Lcg.torchQ (-1)%Q 3%Q (SizeInt 4) 42%Z = (Ok t, g') ->
      shape t = [4] /\
      Forall (fun e => (-1 <= e < 3)%Q) (data t)) /\
  as_tuple (SizeInt 4) = [4] /\
  uniform Lcg.torchQ (-1)%Q 3%Q (SizeInt 4) 42%Z =
    uniform Lcg.torchQ (-1)%Q 3%Q (SizeTuple [4]) 42%Z /\
  normal Lcg.torchQ 0%Q 1%Q (SizeInt 4) 42%Z =
    normal Lcg.torchQ 0%Q 1%Q (SizeTuple [4]) 42%Z /\
  (forall t g',
      normal Lcg.torchQ 0%Q 1%Q (SizeInt 4) 42%Z = (Ok t, g') -> shape t = [4]).
Proof.
  apply (uniform_range_and_size Lcg.torchQ
           (lcg_rand_shaped _ _ _) torchQ_rand_unit_interval
           (lcg_normal_shaped _ _ _)
           (-1)%Q 3%Q 0%Q 1%Q (SizeInt 4) 4 42%Z).
  reflexivity.
Defined.

(** What the reference generator draws for that call, in lowest terms. *)
Example uniform_run :
  option_map (fun t => (shape t, map Qred (data t)))
    (as_option (fst (uniform Lcg.torchQ (-1)%Q 3%Q (SizeInt 4) 42%Z))) =
  Some ([4], [-(2097131 # 2097152); 11427505 # 4194304;
               212315 # 1048576; 4929867 # 4194304]%Q).
Proof. vm_compute. reflexivity. Qed.

Lemma choice_draws_slices_witness :
  (exists r g',
      choice Lcg.torchQ (PTensor population32) 4 42%Z = (Ok (PTensor r), g') /\
      len r = Ok 4 /\ shape r = [4; 2] /\ wf_tensor r /\
      forall j, j < 4 -> exists i, i < 3 /\ slice r j = slice population32 i) /\
  choice Lcg.torchQ (@PList exactQ [1%Q; 2%Q]) 4 42%Z = (Ok (@PList exactQ [1%Q; 2%Q]), 42%Z).
Proof.
  split.
  - apply (proj1 (choice_draws_slices exactQ Lcg.torchQ
                    (lcg_randint_in_range _ _ _)
                    (PTensor population32) 4 42%Z)
                 population32 3 [2] eq_refl eq_refl);
      [lia | reflexivity].
  - apply (proj2 (choice_draws_slices exactQ Lcg.torchQ
                    (lcg_randint_in_range _ _ _)
                    (@PList exactQ [1%Q; 2%Q]) 4 42%Z)).
    reflexivity.
Defined.

(** What the reference generator draws for that call. *)
Example choice_run :
  fst (choice Lcg.torchQ (PTensor population32) 4 42%Z) =
  Ok (@PTensor exactQ (mkTensor [4; 2] [1%Q; 2%Q; 5%Q; 6%Q; 1%Q; 2%Q; 3%Q; 4%Q])).
Proof. vm_compute. reflexivity. Qed.

(** *** Boundary cases *)


(** Nothing can be drawn from an empty population: torch rejects the empty
    range, and no array of one slice of the population exists anyway. *)
Lemma choice_empty_population :
  fst (choice Lcg.torchQ (PTensor (mkTensor [0] [])) 1 42%Z) = Raise RuntimeError /\
  ~ exists (T : Torch exactQ) (g g' : generator T) (r : tensor exactQ),
      choice T (PTensor (mkTensor [0] [])) 1 g = (Ok (PTensor r), g') /\
      len r = Ok 1 /\
      forall j, j < 1 ->
        exists i, i < 0 /\ slice r j = slice (mkTensor [0] []) i.
Proof.
  split; [reflexivity | ].
  intros (T & g & g' & r & _ & _ & Hslices).
  destruct (Hslices 0 ltac:(lia)) as (i & Hi & _). lia.
Qed.

(** A 0-d tensor has no first axis at all. *)
Example choice_zero_dim :
  choice Lcg.torchQ (@PTensor exactQ (scalar 1%Q)) 1 42%Z = (Raise TypeError, 42%Z).
Proof. reflexivity. Qed.

(** In binary32 the floats from [2^24] on are 2 apart.  Rescaled to
    [[2^24, 2^24 + 2)], the variate 0.75 gives [2^24 + 1.5], which rounds to
    [2^24 + 2], the excluded upper bound (and so does every variate above
    one half). *)
Lemma uniform_attains_high_binary32 :
  let low : binary32 := S754_finite false 8388608 1 in
  let high : binary32 := S754_finite false 8388609 1 in
  let g := 12582912%Z in
  ltb low high = true /\
  torch_rand Lcg.torch32 [1] g =
    (Ok (mkTensor [1] [S754_finite false 12582912 (-24)]), Lcg.next g) /\
  in_half_open zero one (S754_finite false 12582912 (-24) : binary32) = true /\
  uniform Lcg.torch32 low high (SizeInt 1) g =
    (Ok (mkTensor [1] [high]), Lcg.next g) /\
  in_half_open low high high = false.
Proof.
  vm_compute. repeat split.
Qed.

(** The rounding behind it: in binary32, [(high - low) * 0.75 + low] with
    [low = 2^24] and [high = 2^24 + 2] is [high]. *)
Example rescale_rounds_to_high :
  let low := S754_finite false 8388608 1 in
  let high := S754_finite false 8388609 1 in
  let u := S754_finite false 12582912 (-24) in
  SFsub 24 128 high low = S754_finite false 8388608 (-22) /\
  SFmul 24 128 (SFsub 24 128 high low) u = S754_finite false 12582912 (-23) /\
  SFadd 24 128 (SFmul 24 128 (SFsub 24 128 high low) u) low = high.
Proof. vm_compute. repeat split. Qed.

(** The largest binary32 variate, [1 - 2^-24], rescaled to [[1, 2)] is a tie
    between [2 - 2^-23] and 2, and is rounded to 2. *)
Example uniform_attains_two_binary32 :
  let low : binary32 := one in
  let high : binary32 := float_two 24 in
  let g := 16777215%Z in
  ltb low high = true /\
  torch_rand Lcg.torch32 [1] g =
    (Ok (mkTensor [1] [S754_finite false 16777215 (-24)]), Lcg.next g) /\
  in_half_open zero one (S754_finite false 16777215 (-24) : binary32) = true /\
  uniform Lcg.torch32 low high (SizeInt 1) g =
    (Ok (mkTensor [1] [high]), Lcg.next g) /\
  in_half_open low high high = false.
Proof.
  vm_compute. repeat split.
Qed.

(** The same happens in binary64 with [1 - 2^-53]. *)
Example uniform_attains_two_binary64 :
  let low : binary64 := one in
  let high : binary64 := float_two 53 in
  let g := 9007199254740991%Z in
  ltb low high = true /\
  torch_rand Lcg.torch64 [1] g =
    (Ok (mkTensor [1] [S754_finite false 9007199254740991 (-53)]), Lcg.next g) /\
  in_half_open zero one (S754_finite false 9007199254740991 (-53) : binary64) = true /\
  uniform Lcg.torch64 low high (SizeInt 1) g =
    (Ok (mkTensor [1] [high]), Lcg.next g) /\
  in_half_open low high high = false.
Proof.
  vm_compute. repeat split.
Qed.

(* ===================================================================== *)
(** ** Shape validation of the binary operations *)
(* ===================================================================== *)

Import Linalg.

(** Whatever the checks let through is compatible under the standard rules. *)
Lemma matmul_shape_compatible sa sb r :
  matmul_shape sa sb = Some r -> matmul_compatible sa sb = true.
Proof.
  unfold matmul_shape, matmul_compatible, broadcastable_rev.
  destruct (rev sa) as [ | n [ | m ba]]; try discriminate.
  destruct (rev sb) as [ | p [ | k bb]]; try discriminate.
  destruct (n =? k); [ | discriminate].
  destruct (broadcast_rev ba bb); [reflexivity | discriminate].
Qed.

Lemma dot_shape_compatible sa sb r :
  dot_shape sa sb = Some r -> dot_compatible sa sb = true.
Proof.
  unfold dot_shape, dot_compatible, broadcastable_rev.
  destruct (rev sa) as [ | n ba]; try discriminate.
  destruct (rev sb) as [ | k bb]; try discriminate.
  destruct (n =? k); [ | discriminate].
  destruct (broadcast_rev ba bb); [reflexivity | discriminate].
Qed.

Lemma cross_shape_compatible sa sb r :
  cross_shape sa sb = Some r -> cross_compatible sa sb = true.
Proof.
  unfold cross_shape, cross_compatible, broadcastable_rev.
  destruct (rev sa) as [ | n ba]; try discriminate.
  destruct (rev sb) as [ | k bb]; try discriminate.
  destruct (n =? 3); [ | discriminate].
  destruct (k =? 3); [ | discriminate].
  destruct (broadcast_rev ba bb); [reflexivity | discriminate].
Qed.

(** C6.  Operands whose shapes are incompatible under the standard
    broadcasting and contraction rules make [matmul], [dot] and [cross] fail
    with the shape-mismatch error of the validation: no other error is
    raised and no array is returned. *)
Theorem incompatible_shapes_are_rejected (A : Arith) (a b : tensor A) :
  (matmul_compatible (shape a) (shape b) = false ->
     matmul a b = Raise ShapeMismatch) /\
  (dot_compatible (shape a) (shape b) = false ->
     dot a b = Raise ShapeMismatch) /\
  (cross_compatible (shape a) (shape b) = false ->
     cross a b = Raise ShapeMismatch).
Proof.
  split; [ | split]; intros Hbad.
  - unfold matmul.
    destruct (matmul_shape (shape a) (shape b)) as [[[[batch m] n] p] | ] eqn:Hs;
      [ | reflexivity].
    apply matmul_shape_compatible in Hs. congruence.
  - unfold dot.
    destruct (dot_shape (shape a) (shape b)) as [[batch n] | ] eqn:Hs;
      [ | reflexivity].
    apply dot_shape_compatible in Hs. congruence.
  - unfold cross.
    destruct (cross_shape (shape a) (shape b)) as [batch | ] eqn:Hs;
      [ | reflexivity].
    apply cross_shape_compatible in Hs. congruence.
Qed.

(** The operands of [binary_op_raises_error_test_data]. *)
Lemma incompatible_shapes_are_rejected_witness :
  matmul (ones [2; 3; 3]) (ones [2; 3]) = Raise ShapeMismatch /\
  dot (ones [4]) (ones [3]) = Raise ShapeMismatch /\
  cross (ones [4]) (ones [4]) = Raise ShapeMismatch.
Proof.
  split; [ | split].
  - apply (proj1 (incompatible_shapes_are_rejected exactQ
                    (ones [2; 3; 3]) (ones [2; 3]))).
    reflexivity.
  - apply (proj1 (proj2 (incompatible_shapes_are_rejected exactQ
                    (ones [4]) (ones [3])))).
    reflexivity.
  - apply (proj2 (proj2 (incompatible_shapes_are_rejected exactQ
                    (ones [4]) (ones [4])))).
    reflexivity.
Defined.

(** The other operands of that list are rejected as well. *)
Example rejected_operands :
  matmul (ones [1]) (ones [1]) = Raise ShapeMismatch /\
  matmul (ones [2; 3; 3]) (ones [3; 3; 3]) = Raise ShapeMismatch /\
  dot (ones [3; 4]) (ones [3]) = Raise ShapeMismatch.
Proof. repeat split. Qed.

(** The operands of [binary_op_like_np_test_data] are accepted. *)
Example accepted_operands :
  option_map shape_of (as_option (matmul (ones [2; 3]) (ones [3; 2]))) = Some [2; 2] /\
  option_map shape_of (as_option (dot (ones [3]) (ones [3]))) = Some [] /\
  option_map shape_of (as_option (cross (ones [3]) (ones [3]))) = Some [3].
Proof. repeat split. Qed.

Example matmul_2x2 :
  matmul (mkTensor [2; 2] [1; 2; 3; 4]%Q : tensor exactQ)
         (mkTensor [2; 2] [5; 6; 7; 8]%Q) =
  Ok (mkTensor [2; 2] [19; 22; 43; 50]%Q).
Proof. vm_compute. reflexivity. Qed.

(** A batch of matrices times one matrix: the single matrix is broadcast. *)
Example matmul_broadcast :
  matmul (mkTensor [2; 2; 2] [1; 0; 0; 1; 2; 0; 0; 2]%Q : tensor exactQ)
         (mkTensor [2; 2] [1; 2; 3; 4]%Q) =
  Ok (mkTensor [2; 2; 2] [1; 2; 3; 4; 2; 4; 6; 8]%Q).
Proof. vm_compute. reflexivity. Qed.

Example dot_and_cross :
  dot (mkTensor [3] [1; 2; 3]%Q : tensor exactQ) (mkTensor [3] [4; 5; 6]%Q) =
    Ok (scalar 32%Q) /\
  cross (mkTensor [3] [1; 0; 0]%Q : tensor exactQ) (mkTensor [3] [0; 1; 0]%Q) =
    Ok (mkTensor [3] [0; 0; 1]%Q).
Proof. vm_compute. split; reflexivity. Qed.

(* ===================================================================== *)
(** ** The autodiff adapter *)
(* ===================================================================== *)

Import Autodiff.

Lemma accumulate_length i s grad : length (accumulate i s grad) = length grad.
Proof.
  revert i. induction grad as [ | x rest IH]; intros [ | i]; simpl; auto.
Qed.

(** The reverse pass never changes the number of gradient entries. *)
Lemma backward_length p e : forall s grad,
  length (backward p e s grad) = length grad.
Proof.
  induction e; intros s grad; simpl;
    repeat match goal with
           | IH : forall s grad, length (backward _ ?e s grad) = _
             |- context [backward _ ?e _ _] => rewrite IH
           end;
    auto using accumulate_length.
Qed.

Lemma accumulate_nth i j s grad :
  i < length grad ->
  nth i (accumulate j s grad) 0%Q =
    if j =? i then (nth i grad 0 + s)%Q else nth i grad 0%Q.
Proof.
  revert i j. induction grad as [ | x rest IH]; intros i j Hi; simpl in Hi.
  - lia.
  - destruct j as [ | j], i as [ | i]; simpl; try reflexivity.
    apply IH. lia.
Qed.

(** The reverse pass adds to every gradient entry the adjoint times the
    partial derivative of the node. *)
Lemma backward_correct p e : forall s grad i,
  i < length grad ->
  (nth i (backward p e s grad) 0 == nth i grad 0 + s * partial p e i)%Q.
Proof.
  induction e as [j | c | a IHa b IHb | a IHa b IHb | a IHa b IHb
                 | a IHa b IHb | f a IHa];
    intros s grad i Hi; simpl.
  - rewrite accumulate_nth by assumption. destruct (j =? i); ring.
  - ring.
  - rewrite IHb, IHa by (rewrite ?backward_length; assumption). ring.
  - rewrite IHb, IHa by (rewrite ?backward_length; assumption). ring.
  - rewrite IHb, IHa by (rewrite ?backward_length; assumption). ring.
  - rewrite IHb, IHa by (rewrite ?backward_length; assumption).
    destruct (Qeq_dec (value p b) 0) as [Hz | Hnz].
    + unfold Qdiv. rewrite Hz. simpl (/ 0)%Q.
      setoid_replace (/ (0 * 0))%Q with 0%Q by reflexivity. ring.
    + field. exact Hnz.
  - rewrite IHa by assumption. ring.
Qed.

(** The gradient that the adapter returns is the gradient: its [i]-th entry
    is the partial derivative of the loss with respect to the [i]-th
    parameter entry. *)
Lemma gradient_is_partial_derivative
      (f : tensor traced -> tensor traced) to_numpy arg i :
  i < length (data (gs_array arg)) ->
  let param := gs_array arg in
  let out := fold_right Add (Const 0) (data (f (requires_grad param))) in
  (nth i (data (gs_array (snd (value_and_grad f to_numpy arg)))) 0
   == partial (data param) out i)%Q.
Proof.
  intros Hi param out. unfold value_and_grad. fold param. fold out.
  destruct to_numpy; simpl;
    rewrite backward_correct by (now rewrite repeat_length);
    rewrite nth_repeat; ring.
Qed.

Lemma gradient_shape_any (f : tensor traced -> tensor traced) to_numpy arg :
  shape (gs_array (snd (value_and_grad f to_numpy arg))) = shape (gs_array arg) /\
  length (data (gs_array (snd (value_and_grad f to_numpy arg)))) =
    length (data (gs_array arg)).
Proof.
  unfold value_and_grad. destruct to_numpy; simpl;
    now rewrite backward_length, repeat_length.
Qed.

(** The loss is handed over as a 0-d array. *)
Lemma value_is_scalar (f : tensor traced -> tensor traced) to_numpy arg :
  shape (gs_array (fst (value_and_grad f to_numpy arg))) = [].
Proof. unfold value_and_grad. now destruct to_numpy. Qed.

Import Regression.

(** C7.  Whatever the estimator, the data and the parameter, the gradient of
    the regression loss that the adapter returns is an array of the shape of
    the parameter, [(2,) + point_shape], with one entry per parameter
    entry. *)
Theorem gradient_shape_matches_parameter
        (gr : Estimator traced) (X y : tensor traced) (shp : list nat)
        (to_numpy : bool) (arg : array) :
  shape (gs_array arg) = 2 :: shp ->
  wf_tensor (gs_array arg) ->
  let grad :=
    gs_array (snd (value_and_grad (fun p => loss gr X y p shp) to_numpy arg)) in
  shape grad = shape (gs_array arg) /\
  shape grad = 2 :: shp /\
  wf_tensor grad.
Proof.
  intros Hs Hwf grad.
  destruct (gradient_shape_any (fun p => loss gr X y p shp) to_numpy arg)
    as [Hshape Hlen].
  fold grad in Hshape, Hlen.
  split; [exact Hshape | ]. split; [congruence | ].
  unfold wf_tensor in *. congruence.
Qed.

(* ===================================================================== *)
(** ** The regression loss at the generating parameters *)
(* ===================================================================== *)

(** Unpacking a stacked parameter gives back its two halves. *)
Lemma unpack_vstack (A : Arith) (intercept coef : tensor A) shp :
  shape intercept = shp -> shape coef = shp -> wf_tensor intercept ->
  unpack (vstack intercept coef) shp = (intercept, coef).
Proof.
  destruct intercept as [si di], coef as [sc dc].
  unfold wf_tensor, unpack, vstack; simpl. intros -> -> Hwf.
  rewrite <- Hwf, firstn_app, Nat.sub_diag, firstn_all, skipn_app,
    Nat.sub_diag, skipn_all.
  simpl. now rewrite app_nil_r.
Qed.

Lemma vstack_shape (A : Arith) (intercept coef : tensor A) shp :
  shape intercept = shp -> shape coef = shp ->
  wf_tensor intercept -> wf_tensor coef ->
  shape (vstack intercept coef) = 2 :: shp /\ wf_tensor (vstack intercept coef).
Proof.
  unfold wf_tensor, vstack; simpl. intros Hi Hc Hwi Hwc.
  rewrite Hi. split; [reflexivity | ].
  rewrite length_app, Hwi, Hwc, Hi, Hc. unfold numel; simpl. lia.
Qed.

(** The rationals and the IEEE formats keep sums of zeros zero. *)
Lemma exactQ_zero_laws : zero_laws exactQ.
Proof.
  split; [reflexivity | ].
  unfold is_zero; simpl. intros a b Ha Hb.
  destruct (a ?= 0)%Q eqn:Ea; try discriminate.
  destruct (b ?= 0)%Q eqn:Eb; try discriminate.
  apply Qeq_alt in Ea. apply Qeq_alt in Eb.
  assert (H : (a + b == 0)%Q) by (rewrite Ea, Eb; ring).
  apply Qeq_alt in H. now rewrite H.
Qed.

Lemma ieee_is_zero prec emax (x : ieee prec emax) :
  is_zero x = true -> exists s, x = S754_zero s.
Proof.
  unfold is_zero; simpl.
  destruct x as [s | s | | s m e]; simpl; try discriminate.
  - now exists s.
  - destruct s; discriminate.
  - destruct s; discriminate.
Qed.

Lemma ieee_zero_laws prec emax : zero_laws (ieee prec emax).
Proof.
  split; [reflexivity | ].
  intros a b Ha Hb.
  destruct (ieee_is_zero prec emax a Ha) as [sa ->].
  destruct (ieee_is_zero prec emax b Hb) as [sb ->].
  destruct sa, sb; reflexivity.
Qed.

(** Scaling a zero: by any rational, and by any finite float. *)
Lemma exactQ_scaling_keeps_zero (x s : exactQ) :
  is_zero s = true -> is_zero (mul x s) = true.
Proof.
  unfold is_zero; simpl. intros Hs.
  destruct (s ?= 0)%Q eqn:Es; try discriminate.
  apply Qeq_alt in Es.
  assert (H : (x * s == 0)%Q) by (rewrite Es; ring).
  apply Qeq_alt in H. now rewrite H.
Qed.

Lemma ieee_scaling_keeps_zero prec emax (x s : ieee prec emax) :
  nonfinite x = false -> is_zero s = true -> is_zero (mul x s) = true.
Proof.
  intros Hx Hs. destruct (ieee_is_zero prec emax s Hs) as [b ->].
  destruct x as [sx | sx | | sx m e]; try discriminate;
    destruct sx, b; reflexivity.
Qed.

Section LossFacts.
Variable A : Arith.
Hypothesis Hlaws : zero_laws A.
Variable gr : Estimator A.

Lemma gs_sum_is_zero (l : list A) :
  Forall (fun x => is_zero x = true) l -> is_zero (gs_sum l) = true.
Proof.
  destruct Hlaws as [Hzero Hadd].
  induction 1 as [ | x l Hx _ IH]; simpl.
  - exact Hzero.
  - now apply Hadd.
Qed.


End LossFacts.

(** *** Flat space *)


(** The loss of the rational data at the generating parameters. *)
Example loss_run :
  let gr := euclidean_regression exactQ in
  let y := geodesic_targets (euclidean exactQ) centred_X true_intercept true_coef in
  tmap Qred (loss gr centred_X y (vstack true_intercept true_coef) [3]) =
    scalar 0%Q.
Proof. vm_compute. reflexivity. Qed.


Lemma gradient_shape_matches_parameter_witness :
  let gr := euclidean_regression traced in
  let X := tmap Const centred_X in
  let y := tmap Const
             (geodesic_targets (euclidean exactQ) centred_X true_intercept true_coef) in
  let grad :=
    gs_array (snd (value_and_grad (fun p => loss gr X y p [3]) false
                                  (Native guess))) in
  shape grad = shape guess /\ shape grad = [2; 3] /\ wf_tensor grad.
Proof.
  apply (gradient_shape_matches_parameter (euclidean_regression traced)
           (tmap Const centred_X)
           (tmap Const (geodesic_targets (euclidean exactQ) centred_X
                                         true_intercept true_coef))
           [3] false (Native guess)); reflexivity.
Defined.

(** The adapter on that guess: the loss and its gradient, in lowest terms. *)
Example value_and_grad_run :
  let gr := euclidean_regression traced in
  let X := tmap Const centred_X in
  let y := tmap Const
             (geodesic_targets (euclidean exactQ) centred_X true_intercept true_coef) in
  let r := value_and_grad (fun p => loss gr X y p [3]) false (Native guess) in
  tmap Qred (gs_array (fst r)) = scalar (89 # 6)%Q /\
  tmap Qred (gs_array (snd r)) =
    mkTensor [2; 3] [-2; -4; -6; -(2 # 3); 0; 4 # 3]%Q.
Proof. vm_compute. split; reflexivity. Qed.

(* ===================================================================== *)
(** ** More on the sampling module *)
(* ===================================================================== *)

(** *** [uniform]: one draw, rescaled *)

Section UniformCoupling.
Variable T : Torch exactQ.

(** From one generator state, [uniform(low, high, size)] is the affine image
    of [uniform(0, 1, size)]: the same raw draw is used whatever the bounds,
    the generator ends in the same state, and in exact arithmetic every entry
    is [(high - low) * s + low] for the entry [s] of the standard sample. *)
Theorem uniform_location_scale (low high : Q) size g s g' :
  (low < high)%Q ->
  uniform T 0%Q 1%Q size g = (Ok s, g') ->
  exists t,
    uniform T low high size g = (Ok t, g') /\
    shape t = shape s /\
    Forall2 (fun e x => (e == (high - low) * x + low)%Q) (data t) (data s).
Proof.
  intros Hlh Hstd.
  destruct (uniform_returns exactQ T _ _ _ _ _ _ Hstd) as (u & Hdraw & ->).
  eexists. split; [ | split].
  - apply (uniform_draws exactQ T); [now apply Q_ltb_lt | exact Hdraw].
  - reflexivity.
  - clear Hstd Hdraw. destruct u as [su du]. simpl. rewrite !map_map.
    induction du as [ | x l IH]; simpl.
    + constructor.
    + constructor; [ring | exact IH].
Qed.

End UniformCoupling.

Lemma uniform_location_scale_witness :
  exists t,
    uniform Lcg.torchQ (-1)%Q 3%Q (SizeInt 4) 42%Z =
      (Ok t, snd (uniform Lcg.torchQ 0%Q 1%Q (SizeInt 4) 42%Z)) /\
    shape t = shape unit_sample /\
    Forall2 (fun e x => (e == (3 - -1) * x + -1)%Q) (data t) (data unit_sample).
Proof.
  apply (uniform_location_scale Lcg.torchQ (-1)%Q 3%Q (SizeInt 4) 42%Z
           unit_sample (snd (uniform Lcg.torchQ 0%Q 1%Q (SizeInt 4) 42%Z))).
  - reflexivity.
  - vm_compute. reflexivity.
Defined.

(** *** [uniform]: the shape of the sample, in every arithmetic *)

Section UniformShape.
Variable A : Arith.
Variable T : Torch A.
Hypothesis Hshape : rand_shaped T.

(** Exact or rounded, the array that [uniform] returns has the normalised
    size as its shape and as many entries as that shape has, and an integer
    size [n] gives [n] entries. *)
Theorem uniform_sample_shape (low high : A) size g t g' :
  uniform T low high size g = (Ok t, g') ->
  shape t = as_tuple size /\
  length (data t) = numel (as_tuple size) /\
  (forall n, size = SizeInt n -> length (data t) = n).
Proof.
  intros Hrun.
  destruct (uniform_returns A T _ _ _ _ _ _ Hrun) as (u & Hdraw & ->).
  destruct (Hshape _ _ _ _ Hdraw) as [Hs Hwf].
  assert (Hlen : length (data (tmap (fun e => add e low)
                                    (tmap (mul (sub high low)) u)))
                 = numel (as_tuple size)).
  { simpl. rewrite !length_map. unfold wf_tensor in Hwf. now rewrite Hwf, Hs. }
  split; [exact Hs | ]. split; [exact Hlen | ].
  intros n ->. rewrite Hlen. unfold numel; simpl. lia.
Qed.

End UniformShape.

Lemma uniform_sample_shape_witness :
  shape (mkTensor [2] [S754_nan; S754_nan] : tensor binary32) = [2] /\
  length [S754_nan; S754_nan] = numel [2] /\
  (forall n, SizeInt 2 = SizeInt n -> length [S754_nan; S754_nan] = n).
Proof.
  apply (uniform_sample_shape binary32 Lcg.torch32 (lcg_rand_shaped _ _ _)
           (S754_infinity true) (S754_infinity false) (SizeInt 2) 7%Z
           (mkTensor [2] [S754_nan; S754_nan]) (Lcg.next (Lcg.next 7%Z))).
  vm_compute. reflexivity.
Defined.

(** *** [uniform]: bounds that are not finite numbers *)

Section NonFiniteBounds.
Variables prec emax : Z.
Variable T : Torch (ieee prec emax).
Implicit Types (low high : ieee prec emax).

Lemma nan_is_unordered low high :
  low = S754_nan \/ high = S754_nan -> geb low high = false.
Proof.
  unfold geb; simpl. intros [-> | ->]; [reflexivity | ].
  now destruct low.
Qed.

Lemma rescale_nan low high (x : ieee prec emax) :
  low = S754_nan \/ high = S754_nan ->
  add (mul (sub high low) x) low = S754_nan.
Proof.
  simpl. intros [-> | ->].
  - now destruct (SFmul prec emax (SFsub prec emax high S754_nan) x).
  - reflexivity.
Qed.

(** A NaN bound passes the check [low >= high] (every comparison with a NaN
    is false): the call draws as usual and returns an array of NaNs. *)
Theorem uniform_nan_bound low high size g :
  low = S754_nan \/ high = S754_nan ->
  uniform T low high size g =
    match torch_rand T (as_tuple size) g with
    | (Ok u, g') => (Ok (tmap (fun _ => S754_nan) u), g')
    | (Raise e, g') => (Raise e, g')
    end.
Proof.
  intros Hnan.
  rewrite (uniform_accepts _ T _ _ _ _ (nan_is_unordered low high Hnan)).
  destruct (torch_rand T (as_tuple size) g) as [[u | e] g']; [ | reflexivity].
  do 2 f_equal. unfold tmap; simpl. f_equal.
  rewrite map_map. apply map_ext. intros x. now apply rescale_nan.
Qed.

Lemma rescale_infinite low high (x : ieee prec emax) :
  is_infinity low = true \/ is_infinity high = true ->
  nonfinite (add (mul (sub high low) x) low) = true.
Proof.
  simpl. intros [Hinf | Hinf].
  - destruct low as [ | sl | | ]; try discriminate.
    destruct high as [ | sh | | ]; simpl;
      try (destruct sl, sh; simpl);
      destruct x as [sx | sx | | sx mx ex]; simpl;
      repeat match goal with
             | s : bool |- _ => destruct s; simpl
             end;
      reflexivity.
  - destruct high as [ | sh | | ]; try discriminate.
    destruct low as [sl | sl | | sl ml el]; simpl;
      try (destruct sl, sh; simpl);
      destruct x as [sx | sx | | sx mx ex]; simpl;
      repeat match goal with
             | s : bool |- _ => destruct s; simpl
             end;
      reflexivity.
Qed.

(** With an infinite bound, whatever is drawn, the array that [uniform]
    returns holds no finite number: every entry is an infinity or a NaN. *)
Theorem uniform_infinite_bound low high size g t g' :
  is_infinity low = true \/ is_infinity high = true ->
  uniform T low high size g = (Ok t, g') ->
  forallb nonfinite (data t) = true.
Proof.
  intros Hinf Hrun.
  destruct (uniform_returns _ T _ _ _ _ _ _ Hrun) as (u & _ & ->).
  simpl. rewrite map_map. apply forallb_forall. intros e He.
  apply in_map_iff in He. destruct He as [x [<- _]].
  now apply rescale_infinite.
Qed.

End NonFiniteBounds.

Lemma uniform_nan_bound_witness :
  uniform Lcg.torch32 S754_nan (one : binary32) (SizeInt 2) 7%Z =
    match torch_rand Lcg.torch32 [2] 7%Z with
    | (Ok u, g') => (Ok (tmap (fun _ => S754_nan) u), g')
    | (Raise e, g') => (Raise e, g')
    end.
Proof.
  apply (uniform_nan_bound 24 128 Lcg.torch32 S754_nan (one : binary32)
           (SizeInt 2) 7%Z).
  left. reflexivity.
Defined.

Lemma uniform_infinite_bound_witness :
  uniform Lcg.torch32 (S754_infinity true) (S754_infinity false) (SizeInt 2) 7%Z =
    (Ok (mkTensor [2] [S754_nan; S754_nan]), Lcg.next (Lcg.next 7%Z)) /\
  forallb nonfinite [S754_nan; S754_nan] = true.
Proof.
  assert (Hrun :
    uniform Lcg.torch32 (S754_infinity true) (S754_infinity false) (SizeInt 2) 7%Z =
      (Ok (mkTensor [2] [S754_nan; S754_nan]), Lcg.next (Lcg.next 7%Z))).
  { vm_compute. reflexivity. }
  split; [exact Hrun | ].
  apply (uniform_infinite_bound 24 128 Lcg.torch32
           (S754_infinity true) (S754_infinity false) (SizeInt 2) 7%Z
           (mkTensor [2] [S754_nan; S754_nan])
           (Lcg.next (Lcg.next 7%Z))).
  - left. reflexivity.
  - exact Hrun.
Defined.

(** *** [choice]: what it returns and when it fails *)

Lemma row_incl {X} (t : tensor X) i : incl (row t i) (data t).
Proof.
  unfold row. intros e He.
  set (k := numel (tl (shape t))) in *.
  rewrite <- (firstn_skipn (i * k) (data t)). apply in_or_app. right.
  rewrite <- (firstn_skipn k (skipn (i * k) (data t))). apply in_or_app.
  now left.
Qed.

Section ChoiceMore.
Variable A : Arith.
Variable T : Torch A.

(** What [choice] does on a tensor, step by step. *)
Lemma choice_returns (t : tensor A) a g r g' :
  choice T (PTensor t) a g = (Ok r, g') ->
  exists n idx r',
    len t = Ok n /\
    torch_randint T n [a] g = (Ok idx, g') /\
    getitem t idx = Ok r' /\ r = PTensor r'.
Proof.
  unfold choice, bind, lift, ret.
  destruct (len t) as [n | e]; [ | discriminate].
  destruct (torch_randint T n [a] g) as [[idx | e] g1] eqn:Hdraw;
    [ | discriminate].
  destruct (getitem t idx) as [r' | e] eqn:Hget; [ | discriminate].
  intros [= <- <-]. now exists n, idx, r'.
Qed.

(** Whatever torch draws, [choice] invents nothing: every entry of the
    tensor it returns is an entry of the population. *)
Theorem choice_entries_from_population (t r : tensor A) a g g' :
  choice T (PTensor t) a g = (Ok (PTensor r), g') ->
  incl (data r) (data t).
Proof.
  intros Hrun.
  destruct (choice_returns t a g _ _ Hrun) as (n & idx & r' & _ & _ & Hget & Hr).
  injection Hr as ->.
  unfold getitem in Hget.
  destruct (shape t) as [ | m rest]; [discriminate | ].
  destruct (forallb (fun i => i <? m) (data idx)); [ | discriminate].
  injection Hget as <-. simpl.
  intros e He. apply in_flat_map in He. destruct He as (i & _ & Hi).
  exact (row_incl t i e Hi).
Qed.

(** The failures of [choice] on a tensor: a 0-d tensor is rejected with
    [TypeError] before anything is drawn; with a first axis, [choice] raises
    only what [torch.randint] raises (never an index error of its own). *)
Theorem choice_failures (t : tensor A) a g :
  (shape t = [] -> choice T (PTensor t) a g = (Raise TypeError, g)) /\
  (forall n rest e g',
      shape t = n :: rest -> randint_bounded T ->
      choice T (PTensor t) a g = (Raise e, g') ->
      torch_randint T n [a] g = (Raise e, g')).
Proof.
  split.
  - intros Hs. unfold choice, bind, lift, len. now rewrite Hs.
  - intros n rest e g' Hs Hbound.
    unfold choice, bind, lift, ret, len. rewrite Hs.
    destruct (torch_randint T n [a] g) as [[idx | e1] g1] eqn:Hdraw.
    + rewrite (getitem_in_range t idx n rest Hs (Hbound _ _ _ _ _ Hdraw)).
      discriminate.
    + now intros [= <- <-].
Qed.

Hypothesis Hrandint : randint_in_range T.

Lemma flat_map_zero_indices {X} (f : nat -> list X) (l : list nat) :
  Forall (fun i => i < 1) l ->
  flat_map f l = concat (repeat (f 0) (length l)).
Proof.
  induction 1 as [ | i l Hi _ IH]; simpl.
  - reflexivity.
  - replace i with 0 by lia. now rewrite IH.
Qed.

(** A population of a single slice: whatever the generator does, the result
    is that slice, [a] times. *)
Theorem choice_single_slice (t : tensor A) rest a g :
  shape t = 1 :: rest -> wf_tensor t ->
  exists r g',
    choice T (PTensor t) a g = (Ok (PTensor r), g') /\
    shape r = a :: rest /\
    data r = concat (repeat (data t) a).
Proof.
  intros Hs Hwf.
  destruct (Hrandint 1 [a] g ltac:(lia)) as (idx & g' & Hdraw & Hsi & Hwi & Hall).
  assert (Hlen : length (data idx) = a).
  { unfold wf_tensor in Hwi. rewrite Hsi in Hwi. simpl in Hwi. lia. }
  assert (Hrow : row t 0 = data t).
  { unfold row. rewrite Hs. simpl.
    unfold wf_tensor in Hwf. rewrite Hs in Hwf. simpl in Hwf.
    apply firstn_all2. fold (numel rest). lia. }
  exists {| shape := shape idx ++ rest; data := flat_map (row t) (data idx) |}, g'.
  split; [ | split].
  - unfold choice, bind, lift, ret, len. rewrite Hs, Hdraw.
    now rewrite (getitem_in_range t idx 1 rest Hs Hall).
  - simpl. now rewrite Hsi.
  - simpl. now rewrite (flat_map_zero_indices (row t) (data idx) Hall), Hrow, Hlen.
Qed.

End ChoiceMore.

Lemma lcg_randint_bounded A bits of_bits :
  randint_bounded (Lcg.torch A bits of_bits).
Proof.
  intros high dims g idx g'. simpl.
  destruct high as [ | h]; [discriminate | ].
  destruct (Lcg.draws bits (numel dims) g) as [l g1].
  intros [= <- _]. simpl.
  apply Forall_forall. intros i Hi.
  apply in_map_iff in Hi. destruct Hi as [z [<- _]].
  pose proof (Z.mod_pos_bound z (Z.of_nat (S h)) ltac:(lia)). lia.
Qed.

Lemma choice_entries_from_population_witness :
  incl (data drawn_slices) (data population32).
Proof.
  apply (choice_entries_from_population exactQ Lcg.torchQ
           population32 drawn_slices 4 42%Z
           (snd (choice Lcg.torchQ (PTensor population32) 4 42%Z))).
  vm_compute. reflexivity.
Defined.

Lemma choice_failures_witness :
  choice Lcg.torchQ (@PTensor exactQ (scalar 1%Q)) 3 42%Z = (Raise TypeError, 42%Z) /\
  torch_randint Lcg.torchQ 0 [3] 42%Z = (Raise RuntimeError, 42%Z).
Proof.
  split.
  - apply (proj1 (choice_failures exactQ Lcg.torchQ (scalar 1%Q) 3 42%Z)).
    reflexivity.
  - apply (proj2 (choice_failures exactQ Lcg.torchQ (mkTensor [0; 2] []) 3 42%Z)
                 0 [2] RuntimeError 42%Z eq_refl (lcg_randint_bounded _ _ _)).
    reflexivity.
Defined.

Lemma choice_single_slice_witness :
  exists r g',
    choice Lcg.torchQ (@PTensor exactQ (mkTensor [1; 2] [7%Q; 8%Q])) 3 42%Z =
      (Ok (PTensor r), g') /\
    shape r = [3; 2] /\
    data r = concat (repeat [7%Q; 8%Q] 3).
Proof.
  apply (choice_single_slice exactQ Lcg.torchQ (lcg_randint_in_range _ _ _)
           (mkTensor [1; 2] [7%Q; 8%Q]) [2] 3 42%Z); reflexivity.
Defined.
